(** * swift-query: the C and C++ link-time shims

    Two translation units are covered:

    - [Sources/SQLiteSnapshotShims/sqlite_snapshot_shims.c]: stubs for the
      four [sqlite3_snapshot_*] entry points, compiled when SQLite was built
      without [SQLITE_ENABLE_SNAPSHOT];
    - [Sources/SwiftThreadingShim/SwiftThreadingShim.cpp]: the fallback
      [swift::threading::fatal], compiled on Linux.

    The functions are embedded as computations over an explicit process
    state (memory, allocation table, the two standard output streams and a
    log of the observable events), so that "returns", "aborts", "writes to
    stderr" and "does not touch memory" are all statements about values. *)

From Stdlib Require Import ZArith String Ascii List Lia.
From stdpp Require Import gmap strings pretty.

Local Open Scope Z_scope.
Local Open Scope string_scope.

(* ===================================================================== *)
(** * Part I: definitions                                                 *)
(* ===================================================================== *)

(** ** The process a C function runs in *)

Module Machine.

(** Pointers are plain machine integers; nothing constrains them to be
    mapped, aligned or initialised. *)
Definition ptr : Type := Z.
Definition NULL : ptr := 0.

Inductive FILE : Type := stdout | stderr.

(** What an outside observer (or a memory checker) can see of a run. *)
Inductive event : Type :=
| EvLoad (a : ptr)
| EvStore (a : ptr) (v : Z)
| EvAlloc (a : ptr)
| EvWrite (f : FILE) (bytes : string)
| EvAbort.

Record process : Type := mkProcess {
  mem : gmap Z Z;            (* mapped cells *)
  allocated : gset Z;        (* live heap blocks *)
  stdout_buf : string;       (* everything written to stdout so far *)
  stderr_buf : string;       (* everything written to stderr so far *)
  trace : list event         (* events, oldest first *)
}.

(** How a process ends when a call does not come back. *)
Inductive termination : Type :=
| Aborted                    (* abort(): SIGABRT, abnormal termination *)
| Exited (code : Z).         (* exit(code): normal termination *)

Inductive outcome (A : Type) : Type :=
| Returned (a : A) (p : process)             (* back in the caller *)
| Terminated (how : termination) (p : process) (* the process is gone *)
| Undefined.                                 (* undefined behaviour *)
Arguments Returned {A} a p.
Arguments Terminated {A} how p.
Arguments Undefined {A}.

Definition exec (A : Type) : Type := process -> outcome A.

#[global] Instance exec_ret : MRet exec := fun A a p => Returned a p.

#[global] Instance exec_bind : MBind exec := fun A B k m p =>
  match m p with
  | Returned a p' => k a p'
  | Terminated how p' => Terminated how p'
  | Undefined => Undefined
  end.

#[global] Instance exec_fmap : FMap exec := fun A B f m =>
  a ← m; mret (f a).

Definition emit (e : event) (p : process) : process :=
  {| mem := mem p; allocated := allocated p;
     stdout_buf := stdout_buf p; stderr_buf := stderr_buf p;
     trace := trace p ++ [e] |}.

Definition append_to (f : FILE) (bytes : string) (p : process) : process :=
  match f with
  | stdout =>
      {| mem := mem p; allocated := allocated p;
         stdout_buf := stdout_buf p +:+ bytes; stderr_buf := stderr_buf p;
         trace := trace p |}
  | stderr =>
      {| mem := mem p; allocated := allocated p;
         stdout_buf := stdout_buf p; stderr_buf := stderr_buf p +:+ bytes;
         trace := trace p |}
  end.

(** [*a]: reading through a pointer that is not mapped is undefined. *)
Definition load (a : ptr) : exec Z := fun p =>
  match mem p !! a with
  | Some v => Returned v (emit (EvLoad a) p)
  | None => Undefined
  end.

(** [*a = v]: writing through a pointer that is not mapped is undefined. *)
Definition store (a : ptr) (v : Z) : exec unit := fun p =>
  match mem p !! a with
  | Some _ =>
      Returned tt
        (emit (EvStore a v)
           {| mem := <[a:=v]> (mem p); allocated := allocated p;
              stdout_buf := stdout_buf p; stderr_buf := stderr_buf p;
              trace := trace p |})
  | None => Undefined
  end.

(** [malloc] of one cell: a block at an address that is neither live nor
    mapped joins the allocation table and becomes readable and writable. *)
Definition malloc : exec ptr := fun p =>
  let a := fresh (allocated p ∪ dom (mem p)) in
  Returned a
    (emit (EvAlloc a)
       {| mem := <[a:=0]> (mem p); allocated := {[a]} ∪ allocated p;
          stdout_buf := stdout_buf p; stderr_buf := stderr_buf p;
          trace := trace p |}).

(** Raw output of [bytes] on a stream. *)
Definition fwrite (f : FILE) (bytes : string) : exec unit := fun p =>
  Returned tt (emit (EvWrite f bytes) (append_to f bytes p)).

(** [abort()]: never comes back. *)
Definition abort : exec unit := fun p =>
  Terminated Aborted (emit EvAbort p).

(** The statement [(void)x;]: the parameter is evaluated and dropped. *)
Definition void_cast {A : Type} (x : A) : exec unit := mret tt.

(** Classification of events, used to phrase frame properties. *)
Definition is_memory_access (e : event) : bool :=
  match e with EvLoad _ | EvStore _ _ => true | _ => false end.

Definition is_allocation (e : event) : bool :=
  match e with EvAlloc _ => true | _ => false end.

Definition is_io (e : event) : bool :=
  match e with EvWrite _ _ => true | _ => false end.

(** The value handed back to the caller, the process a run ends in, and
    the events the run added to the log; [None] when there is none. *)
Definition returned {A : Type} (o : outcome A) : option A :=
  match o with
  | Returned a _ => Some a
  | _ => None
  end.

Definition final {A : Type} (o : outcome A) : option process :=
  match o with
  | Returned _ p' => Some p'
  | Terminated _ p' => Some p'
  | Undefined => None
  end.

Definition new_events {A : Type} (m : exec A) (p : process) : option (list event) :=
  p' ← final (m p); Some (drop (length (trace p)) (trace p')).

End Machine.

Import Machine.

(** ** sqlite3.h *)

(** The header is SQLite's, not this repository's: the stubs only use the
    macro [SQLITE_ERROR] from it, which is therefore a parameter of the
    development. *)
Class sqlite3_h : Type := { SQLITE_ERROR : Z }.

(** The value every released sqlite3.h gives the macro. *)
Definition sqlite3_h_release : sqlite3_h := {| SQLITE_ERROR := 1 |}.

(** ** sqlite_snapshot_shims.c *)

Section SnapshotShims.
Context `{sqlite3_h}.

Definition sqlite3_snapshot_open (db : ptr) (zSchema : ptr) (pSnapshot : ptr)
  : exec Z :=
  void_cast db;;
  void_cast zSchema;;
  void_cast pSnapshot;;
  mret SQLITE_ERROR.

Definition sqlite3_snapshot_get (db : ptr) (zSchema : ptr) (ppSnapshot : ptr)
  : exec Z :=
  void_cast db;;
  void_cast zSchema;;
  void_cast ppSnapshot;;
  mret SQLITE_ERROR.

Definition sqlite3_snapshot_free (pSnapshot : ptr) : exec unit :=
  void_cast pSnapshot.

Definition sqlite3_snapshot_cmp (p1 : ptr) (p2 : ptr) : exec Z :=
  void_cast p1;;
  void_cast p2;;
  mret SQLITE_ERROR.

(** *** Callers of the stubs *)

(** One call of one of the four entry points, with its arguments. *)
Inductive call : Type :=
| CallOpen (db zSchema pSnapshot : ptr)
| CallGet (db zSchema ppSnapshot : ptr)
| CallFree (pSnapshot : ptr)
| CallCmp (p1 p2 : ptr).

(** What the caller gets back: an [int] status or nothing. *)
Inductive result : Type :=
| RStatus (rc : Z)
| RVoid.

Definition invoke (c : call) : exec result :=
  match c with
  | CallOpen db zSchema pSnapshot =>
      RStatus <$> sqlite3_snapshot_open db zSchema pSnapshot
  | CallGet db zSchema ppSnapshot =>
      RStatus <$> sqlite3_snapshot_get db zSchema ppSnapshot
  | CallFree pSnapshot =>
      (fun _ => RVoid) <$> sqlite3_snapshot_free pSnapshot
  | CallCmp p1 p2 =>
      RStatus <$> sqlite3_snapshot_cmp p1 p2
  end.

(** A call history: the calls a program made before the one of interest. *)
Fixpoint replay (history : list call) : exec unit :=
  match history with
  | [] => mret tt
  | c :: rest => invoke c;; replay rest
  end.

End SnapshotShims.

(** ** The C library's formatted output *)

Module Libc.

(** One variadic argument, after the default argument promotions
    ([char] and [short] travel as [int]).  A [char *] argument is
    represented by the characters it points to, terminator excluded. *)
Inductive va_arg : Type :=
| VInt (n : Z)
| VUInt (n : Z)
| VStr (s : string).

Definition va_list : Type := list va_arg.

Definition va_start (varargs : list va_arg) : va_list := varargs.
Definition va_end (ap : va_list) : exec unit := mret tt.

Definition newline : string := String (ascii_of_N 10) EmptyString.

Definition in_int (n : Z) : bool := ((- 2 ^ 31 <=? n) && (n <? 2 ^ 31))%Z.
Definition in_unsigned (n : Z) : bool := ((0 <=? n) && (n <? 2 ^ 32))%Z.

(** Modelled from the spec: [vfprintf] and [fprintf] belong to the C
    library, which is not part of the repository; section 4.2 says the
    message is formatted "using standard placeholder substitution".
    [conversion] and [printf_spec] give that substitution for the
    conversions [%d], [%i], [%u], [%c], [%s] and [%%] without flags, width
    or precision.  [None] stands for everything this fragment leaves
    open: other conversions, a conversion whose argument is missing or of
    another type, a lone [%] at the end. Surplus arguments are ignored. *)
Definition conversion (d : ascii) (a : va_arg) : option string :=
  match a with
  | VInt n =>
      if Ascii.eqb d "d" || Ascii.eqb d "i" then
        if in_int n then Some (pretty n) else None
      else if Ascii.eqb d "c" then
        Some (String (ascii_of_N (Z.to_N (n mod 256))) EmptyString)
      else None
  | VUInt n =>
      if Ascii.eqb d "u" then
        if in_unsigned n then Some (pretty n) else None
      else None
  | VStr s =>
      if Ascii.eqb d "s" then Some s else None
  end.

(** Modelled from the spec: the C library's rendering of a whole format,
    absent from the repository; literal characters are copied, [%%] gives
    one percent sign, every other conversion takes the next argument. *)
Fixpoint printf_spec (format : string) (ap : va_list) : option string :=
  match format with
  | EmptyString => Some EmptyString
  | String c rest =>
      if Ascii.eqb c "%" then
        match rest with
        | EmptyString => None
        | String d rest' =>
            if Ascii.eqb d "%" then String "%" <$> printf_spec rest' ap
            else
              match ap with
              | [] => None
              | a :: ap' =>
                  out ← conversion d a;
                  tail ← printf_spec rest' ap';
                  Some (out +:+ tail)
              end
        end
      else String c <$> printf_spec rest ap
  end.

(** Text without any conversion specification. *)
Fixpoint plain (s : string) : bool :=
  match s with
  | EmptyString => true
  | String c rest => negb (Ascii.eqb c "%") && plain rest
  end.

(** The formatter of the C library the shim is linked against. *)
Class libc : Type := { vformat : string -> va_list -> string }.

(** A library conforms when it agrees with [printf_spec] wherever the
    latter is defined. *)
Definition conforms (L : libc) : Prop :=
  forall format ap out,
    printf_spec format ap = Some out -> vformat format ap = out.

(** A conforming library: it prints nothing where [printf_spec] is silent. *)
Definition libc_reference : libc :=
  {| vformat format ap := default EmptyString (printf_spec format ap) |}.

Section Output.
Context `{libc}.

(** [vfprintf(f, format, ap)]: the rendered text goes to the stream,
    the number of characters comes back. *)
Definition vfprintf (f : FILE) (format : string) (ap : va_list) : exec Z :=
  let bytes := vformat format ap in
  fwrite f bytes;;
  mret (Z.of_nat (String.length bytes)).

Definition fprintf (f : FILE) (format : string) (args : list va_arg) : exec Z :=
  vfprintf f format (va_start args).
End Output.

End Libc.

Import Libc.

(** ** SwiftThreadingShim.cpp *)

Module swift.
Module threading.
Section Shim.
Context `{libc}.

Definition fatal (message : string) (varargs : list va_arg) : exec unit :=
  fprintf stderr "SwiftThreading fatal: " [];;
  let args := va_start varargs in
  vfprintf stderr message args;;
  va_end args;;
  fprintf stderr newline [];;
  abort.
End Shim.
End threading.
End swift.

(* ===================================================================== *)
(** * Part II: properties                                                 *)
(* ===================================================================== *)

(** ** The machine *)

Lemma exec_ret_bind {A B : Type} (a : A) (k : A -> exec B) (p : process) :
  (mret a ≫= k) p = k a p.
Proof. reflexivity. Qed.

Lemma exec_bind_returned {A B : Type} (m : exec A) (k : A -> exec B) a p p' :
  m p = Returned a p' -> (m ≫= k) p = k a p'.
Proof. intros Hm. unfold mbind, exec_bind. now rewrite Hm. Qed.

Lemma exec_fmap_returned {A B : Type} (f : A -> B) (m : exec A) a p p' :
  m p = Returned a p' -> (f <$> m) p = Returned (f a) p'.
Proof. intros Hm. unfold fmap, exec_fmap. now rewrite (exec_bind_returned _ _ _ _ _ Hm). Qed.

Lemma void_cast_returns {A : Type} (x : A) (p : process) :
  void_cast x p = Returned tt p.
Proof. reflexivity. Qed.

(** A call that hands the very same process back has logged nothing. *)
Lemma new_events_same_process {A : Type} (m : exec A) a p :
  m p = Returned a p -> new_events m p = Some [].
Proof.
  intros Hm. unfold new_events. rewrite Hm. cbn.
  now rewrite drop_all.
Qed.

(** The model can fault: reading or writing through a pointer that is not
    mapped is undefined, so "does not fault" below is not automatic. *)
Example load_unmapped_undefined (a : ptr) :
  load a (mkProcess ∅ ∅ "" "" []) = Undefined.
Proof. reflexivity. Qed.

Example store_unmapped_undefined (a : ptr) (v : Z) :
  store a v (mkProcess ∅ ∅ "" "" []) = Undefined.
Proof. reflexivity. Qed.

Example malloc_logs_and_allocates :
  exists a p',
    malloc (mkProcess ∅ ∅ "" "" []) = Returned a p' /\
    allocated p' = {[a]} /\ mem p' !! a = Some 0 /\
    new_events malloc (mkProcess ∅ ∅ "" "" []) = Some [EvAlloc a].
Proof.
  eexists _, _. split; [reflexivity |]. cbn.
  split; [apply (right_id_L ∅ (∪)) |]. split; [apply lookup_insert_eq | reflexivity].
Qed.

Example load_mapped_logs :
  new_events (load 8) (mkProcess {[ 8 := 5 ]} ∅ "" "" []) = Some [EvLoad 8].
Proof. reflexivity. Qed.

(** ** sqlite_snapshot_shims.c *)

Section SnapshotFacts.
Context `{sqlite3_h}.

Lemma sqlite3_snapshot_open_eq db zSchema pSnapshot p :
  sqlite3_snapshot_open db zSchema pSnapshot p = Returned SQLITE_ERROR p.
Proof.
  unfold sqlite3_snapshot_open.
  repeat (erewrite exec_bind_returned by apply void_cast_returns).
  reflexivity.
Qed.

Lemma sqlite3_snapshot_get_eq db zSchema ppSnapshot p :
  sqlite3_snapshot_get db zSchema ppSnapshot p = Returned SQLITE_ERROR p.
Proof.
  unfold sqlite3_snapshot_get.
  repeat (erewrite exec_bind_returned by apply void_cast_returns).
  reflexivity.
Qed.

Lemma sqlite3_snapshot_free_eq pSnapshot p :
  sqlite3_snapshot_free pSnapshot p = Returned tt p.
Proof. apply void_cast_returns. Qed.

Lemma sqlite3_snapshot_cmp_eq p1 p2 p :
  sqlite3_snapshot_cmp p1 p2 p = Returned SQLITE_ERROR p.
Proof.
  unfold sqlite3_snapshot_cmp.
  repeat (erewrite exec_bind_returned by apply void_cast_returns).
  reflexivity.
Qed.

(** The stubs against the released header, on a process without memory. *)
Example release_open_run :
  @sqlite3_snapshot_open sqlite3_h_release 4096 0 8192 (mkProcess ∅ ∅ "" "" [])
  = Returned 1 (mkProcess ∅ ∅ "" "" []).
Proof. reflexivity. Qed.

Example release_get_free_cmp_run :
  (rc ← @sqlite3_snapshot_get sqlite3_h_release 4096 0 8192;
   sqlite3_snapshot_free NULL;;
   rc' ← @sqlite3_snapshot_cmp sqlite3_h_release NULL 12;
   mret (rc, rc')) (mkProcess ∅ ∅ "" "" [])
  = Returned (1, 1) (mkProcess ∅ ∅ "" "" []).
Proof. reflexivity. Qed.

(** The result of a call is fixed by the call alone: one [r] serves
    every process. *)
Lemma invoke_frame (c : call) :
  exists r, forall p, invoke c p = Returned r p.
Proof.
  destruct c as [db z s | db z s | s | a b]; cbn [invoke].
  - exists (RStatus SQLITE_ERROR). intros p.
    apply exec_fmap_returned, sqlite3_snapshot_open_eq.
  - exists (RStatus SQLITE_ERROR). intros p.
    apply exec_fmap_returned, sqlite3_snapshot_get_eq.
  - exists RVoid. intros p.
    apply (exec_fmap_returned (fun _ => RVoid) _ tt), sqlite3_snapshot_free_eq.
  - exists (RStatus SQLITE_ERROR). intros p.
    apply exec_fmap_returned, sqlite3_snapshot_cmp_eq.
Qed.

(** Whatever was called before, the process is as it was. *)
Lemma replay_frame (history : list call) (p : process) :
  replay history p = Returned tt p.
Proof.
  induction history as [| c rest IH]; cbn [replay].
  - reflexivity.
  - destruct (invoke_frame c) as [r Hr].
    rewrite (exec_bind_returned _ _ _ _ _ (Hr p)). exact IH.
Qed.

Lemma replay_app (h1 h2 : list call) (p : process) :
  replay (h1 ++ h2) p = (replay h1;; replay h2) p.
Proof.
  rewrite (exec_bind_returned _ _ _ _ _ (replay_frame h1 p)).
  now rewrite !replay_frame.
Qed.

End SnapshotFacts.

(** C1: for every connection handle, schema name and output slot,
    [sqlite3_snapshot_open] and [sqlite3_snapshot_get] return
    [SQLITE_ERROR]; memory after the call is memory before the call, in
    particular the cell the output pointer designates, and the call logs
    no event, so nothing was stored through that pointer. *)
Theorem snapshot_open_get_error_output_unchanged `{sqlite3_h}
    (db zSchema out : ptr) (p : process) :
  exists p_open p_get,
    sqlite3_snapshot_open db zSchema out p = Returned SQLITE_ERROR p_open /\
    sqlite3_snapshot_get db zSchema out p = Returned SQLITE_ERROR p_get /\
    mem p_open = mem p /\ mem p_get = mem p /\
    mem p_open !! out = mem p !! out /\ mem p_get !! out = mem p !! out /\
    new_events (sqlite3_snapshot_open db zSchema out) p = Some [] /\
    new_events (sqlite3_snapshot_get db zSchema out) p = Some [].
Proof.
  exists p, p.
  pose proof (sqlite3_snapshot_open_eq db zSchema out p) as Ho.
  pose proof (sqlite3_snapshot_get_eq db zSchema out p) as Hg.
  repeat split; try assumption.
  - exact (new_events_same_process _ _ _ Ho).
  - exact (new_events_same_process _ _ _ Hg).
Qed.

(** C3: for every pair of snapshot handles, [sqlite3_snapshot_cmp] returns
    [SQLITE_ERROR]: whatever the two values are, whatever the memory holds
    (or does not hold) at them, the null handle included. *)
Theorem snapshot_cmp_always_error `{sqlite3_h} (p1 p2 : ptr) (p : process) :
  returned (sqlite3_snapshot_cmp p1 p2 p) = Some SQLITE_ERROR /\
  returned (sqlite3_snapshot_cmp NULL NULL p) = Some SQLITE_ERROR /\
  returned (sqlite3_snapshot_cmp p1 p2 (mkProcess ∅ ∅ "" "" [])) = Some SQLITE_ERROR.
Proof.
  rewrite !sqlite3_snapshot_cmp_eq. cbn [returned]. auto.
Qed.

(** C4: [sqlite3_snapshot_free] is a no-op for every handle: it returns to
    its caller with the process exactly as it was.  That covers the null
    handle, any handle passed after a failed [sqlite3_snapshot_get], and the
    caller that reads the handle back from the slot the failed get was
    given: the only trace of that caller is its own read. *)
Theorem snapshot_free_noop `{sqlite3_h} (handle : ptr) (p : process) :
  sqlite3_snapshot_free handle p = Returned tt p /\
  sqlite3_snapshot_free NULL p = Returned tt p /\
  (forall db zSchema slot,
      (sqlite3_snapshot_get db zSchema slot;; sqlite3_snapshot_free handle) p
      = Returned tt p) /\
  (forall db zSchema slot,
      (sqlite3_snapshot_get db zSchema slot;;
       h ← load slot; sqlite3_snapshot_free h) p
      = (load slot;; mret tt) p).
Proof.
  split; [| split; [| split]].
  - apply sqlite3_snapshot_free_eq.
  - apply sqlite3_snapshot_free_eq.
  - intros db zSchema slot.
    rewrite (exec_bind_returned _ _ _ _ _ (sqlite3_snapshot_get_eq db zSchema slot p)).
    apply sqlite3_snapshot_free_eq.
  - intros db zSchema slot.
    rewrite (exec_bind_returned _ _ _ _ _ (sqlite3_snapshot_get_eq db zSchema slot p)).
    unfold mbind, exec_bind.
    destruct (load slot p) as [h p' | how p' |];
      [apply sqlite3_snapshot_free_eq | reflexivity | reflexivity].
Qed.

(** C6: the status [sqlite3_snapshot_cmp] returns is the status
    [sqlite3_snapshot_open] returns and the status [sqlite3_snapshot_get]
    returns, for all arguments and all processes: one and the same
    [SQLITE_ERROR]. *)
Theorem snapshot_stubs_same_status `{sqlite3_h}
    (a b db1 zSchema1 s1 db2 zSchema2 s2 : ptr) (p p' p'' : process) :
  returned (sqlite3_snapshot_cmp a b p)
    = returned (sqlite3_snapshot_open db1 zSchema1 s1 p') /\
  returned (sqlite3_snapshot_cmp a b p)
    = returned (sqlite3_snapshot_get db2 zSchema2 s2 p'') /\
  returned (sqlite3_snapshot_cmp a b p) = Some SQLITE_ERROR.
Proof.
  rewrite sqlite3_snapshot_cmp_eq, sqlite3_snapshot_open_eq,
    sqlite3_snapshot_get_eq.
  cbn [returned]. auto.
Qed.

(** C7: [sqlite3_snapshot_open] writes to no stream and allocates nothing,
    [sqlite3_snapshot_get] neither allocates nor stores anything: both
    streams, the allocation table and memory are as before, no event is
    logged, and the process handed back is the one received. The status is
    all the caller gets. *)
Theorem snapshot_open_get_no_effect `{sqlite3_h}
    (db zSchema out : ptr) (p : process) :
  exists p_open p_get,
    sqlite3_snapshot_open db zSchema out p = Returned SQLITE_ERROR p_open /\
    sqlite3_snapshot_get db zSchema out p = Returned SQLITE_ERROR p_get /\
    (stdout_buf p_open = stdout_buf p /\ stderr_buf p_open = stderr_buf p /\
     allocated p_open = allocated p) /\
    (allocated p_get = allocated p /\ mem p_get = mem p) /\
    (exists es, new_events (sqlite3_snapshot_open db zSchema out) p = Some es /\
       filter (fun e => is_io e || is_allocation e) es = []) /\
    (exists es, new_events (sqlite3_snapshot_get db zSchema out) p = Some es /\
       filter (fun e => is_memory_access e || is_allocation e) es = []) /\
    p_open = p /\ p_get = p.
Proof.
  exists p, p.
  pose proof (sqlite3_snapshot_open_eq db zSchema out p) as Ho.
  pose proof (sqlite3_snapshot_get_eq db zSchema out p) as Hg.
  split; [exact Ho |]. split; [exact Hg |].
  split; [auto |]. split; [auto |].
  split; [| split; [| auto]].
  - exists []. split; [| reflexivity].
    eapply new_events_same_process; eassumption.
  - exists []. split; [| reflexivity].
    eapply new_events_same_process; eassumption.
Qed.

(** C8: the four stubs are stateless and deterministic.  Take one call [c],
    two arbitrary call histories and two arbitrary processes: after either
    history, from either process, [c] returns the same result, and the
    process it returns in is the one the run started from.  So no result
    depends on memory or on earlier calls, and no call changes anything. *)
Theorem snapshot_stubs_stateless `{sqlite3_h}
    (c : call) (history1 history2 : list call) (p1 p2 : process) :
  exists r,
    (replay history1;; invoke c) p1 = Returned r p1 /\
    (replay history2;; invoke c) p2 = Returned r p2 /\
    new_events (replay history1;; invoke c) p1 = Some [] /\
    new_events (replay history2;; invoke c) p2 = Some [].
Proof.
  destruct (invoke_frame c) as [r Hr]. exists r.
  assert (Hrun : forall h p, (replay h;; invoke c) p = Returned r p).
  { intros h p.
    rewrite (exec_bind_returned _ _ _ _ _ (replay_frame h p)). apply Hr. }
  repeat split; try apply Hrun.
  - exact (new_events_same_process _ _ _ (Hrun history1 p1)).
  - exact (new_events_same_process _ _ _ (Hrun history2 p2)).
Qed.

(** C9: no stub reads or writes through a pointer argument.  For arbitrary
    pointer values and an arbitrary process, in particular one with no
    mapped cell at all (every pointer dangling), each of the four calls is
    defined, returns, and logs no load and no store. *)
Theorem snapshot_stubs_never_dereference `{sqlite3_h}
    (c : call) (p : process) :
  invoke c p <> Undefined /\
  invoke c (mkProcess ∅ (allocated p) (stdout_buf p) (stderr_buf p) (trace p))
    <> Undefined /\
  exists es,
    new_events (invoke c) p = Some es /\
    Forall (fun e => is_memory_access e = false) es.
Proof.
  destruct (invoke_frame c) as [r Hr].
  split; [| split].
  - now rewrite Hr.
  - now rewrite Hr.
  - exists []. split; [| constructor].
    apply (new_events_same_process _ r), Hr.
Qed.

(** ** Formatted output *)

Lemma append_nil_l (s : string) : EmptyString +:+ s = s.
Proof. reflexivity. Qed.

Lemma append_cons (c : ascii) (s t : string) :
  String c s +:+ t = String c (s +:+ t).
Proof. reflexivity. Qed.

Lemma append_assoc (a b c : string) : (a +:+ b) +:+ c = a +:+ (b +:+ c).
Proof.
  induction a as [| x a IH]; [reflexivity |].
  now rewrite !append_cons, IH.
Qed.

(** Literal text is copied as it stands, whatever the arguments. *)
Lemma printf_spec_plain (s : string) (ap : va_list) :
  plain s = true -> printf_spec s ap = Some s.
Proof.
  induction s as [| c rest IH]; cbn [plain printf_spec]; intros Hp.
  - reflexivity.
  - apply andb_prop in Hp as [Hc Hrest].
    apply negb_true_iff in Hc. rewrite Hc, (IH Hrest). reflexivity.
Qed.

(** Literal text in front of a format comes out in front of the rest. *)
Lemma printf_spec_plain_prefix (lit rest : string) (ap : va_list) :
  plain lit = true ->
  printf_spec (lit +:+ rest) ap = String.append lit <$> printf_spec rest ap.
Proof.
  induction lit as [| c lit IH]; cbn [plain]; intros Hp.
  - rewrite append_nil_l. now destruct (printf_spec rest ap).
  - apply andb_prop in Hp as [Hc Hlit]. apply negb_true_iff in Hc.
    rewrite append_cons. cbn [printf_spec]. rewrite Hc, (IH Hlit).
    now destruct (printf_spec rest ap).
Qed.

(** One conversion consumes one argument and the rest of the format goes
    on with the remaining ones. *)
Lemma printf_spec_conversion (d : ascii) (rest : string) (a : va_arg) (ap : va_list) :
  Ascii.eqb d "%" = false ->
  printf_spec (String "%" (String d rest)) (a :: ap)
  = (out ← conversion d a; tail ← printf_spec rest ap; Some (out +:+ tail)).
Proof. intros Hd. cbn [printf_spec]. now rewrite Hd. Qed.

Lemma printf_spec_percent (rest : string) (ap : va_list) :
  printf_spec (String "%" (String "%" rest)) ap = String "%" <$> printf_spec rest ap.
Proof. reflexivity. Qed.

Lemma conversion_int (n : Z) :
  (- 2 ^ 31 <= n < 2 ^ 31)%Z -> conversion "d" (VInt n) = Some (pretty n).
Proof.
  intros [Hlo Hhi]. unfold conversion, in_int. cbn [Ascii.eqb Bool.eqb orb].
  apply Z.leb_le in Hlo. apply Z.ltb_lt in Hhi. now rewrite Hlo, Hhi.
Qed.

Lemma libc_reference_conforms : conforms libc_reference.
Proof. intros format ap out Hout. cbn. now rewrite Hout. Qed.

Section ConformingLibc.
Context `{L : libc}.
Hypothesis Hconf : conforms L.

Lemma vformat_plain (s : string) (ap : va_list) :
  plain s = true -> vformat s ap = s.
Proof. intros Hp. apply Hconf, printf_spec_plain, Hp. Qed.

Lemma vfprintf_eq (f : FILE) (format : string) (ap : va_list) (p : process) :
  vfprintf f format ap p
  = Returned (Z.of_nat (String.length (vformat format ap)))
      (emit (EvWrite f (vformat format ap)) (append_to f (vformat format ap) p)).
Proof. reflexivity. Qed.

(** Whatever the library prints, [fatal] ends in [abort]. *)
Lemma fatal_aborts (message : string) (varargs : list va_arg) (p : process) :
  exists p', swift.threading.fatal message varargs p = Terminated Aborted p'.
Proof.
  unfold swift.threading.fatal, fprintf. cbv zeta.
  erewrite exec_bind_returned by apply vfprintf_eq.
  erewrite exec_bind_returned by apply vfprintf_eq.
  erewrite (exec_bind_returned (va_end _)) by reflexivity.
  erewrite exec_bind_returned by apply vfprintf_eq.
  eexists. reflexivity.
Qed.

Lemma fprintf_plain (f : FILE) (s : string) (p : process) :
  plain s = true ->
  fprintf f s [] p
  = Returned (Z.of_nat (String.length s)) (emit (EvWrite f s) (append_to f s p)).
Proof.
  intros Hp. unfold fprintf, va_start.
  rewrite vfprintf_eq, (vformat_plain _ _ Hp). reflexivity.
Qed.

(** The run of [fatal], step by step. *)
Lemma fatal_eq (message : string) (varargs : list va_arg) (p : process) :
  swift.threading.fatal message varargs p
  = Terminated Aborted
      {| mem := mem p; allocated := allocated p; stdout_buf := stdout_buf p;
         stderr_buf :=
           ((stderr_buf p +:+ "SwiftThreading fatal: ")
              +:+ vformat message varargs) +:+ newline;
         trace :=
           (((trace p ++ [EvWrite stderr "SwiftThreading fatal: "])
               ++ [EvWrite stderr (vformat message varargs)])
              ++ [EvWrite stderr newline]) ++ [EvAbort] |}.
Proof.
  unfold swift.threading.fatal.
  erewrite exec_bind_returned by (apply fprintf_plain; reflexivity).
  cbv zeta.
  erewrite exec_bind_returned by apply vfprintf_eq.
  erewrite (exec_bind_returned (va_end _)) by reflexivity.
  erewrite exec_bind_returned by (apply fprintf_plain; reflexivity).
  reflexivity.
Qed.

End ConformingLibc.

(** Formats: literal text around conversions of several argument types. *)
Example printf_spec_bad_state :
  printf_spec "bad state %d" [VInt 42] = Some "bad state 42".
Proof. reflexivity. Qed.

Example printf_spec_mixed :
  printf_spec "%s: %d%% of %u (%c)" [VStr "load"; VInt (-7); VUInt 300; VInt 65]
  = Some "load: -7% of 300 (A)".
Proof. reflexivity. Qed.

Example printf_spec_missing_argument : printf_spec "%d" [] = None.
Proof. reflexivity. Qed.

Example printf_spec_wrong_type : printf_spec "%d" [VStr "x"] = None.
Proof. reflexivity. Qed.

(** ** SwiftThreadingShim.cpp *)

(** C2: for every format string and argument list, [fatal] writes to the
    error stream the fixed prefix, then the message formatted with its
    arguments, then a newline, in that order and nothing else; after the
    three writes it aborts: the process terminates abnormally and no value
    is ever handed back to the caller. *)
Theorem fatal_writes_in_order_then_aborts `{L : libc} (Hconf : conforms L)
    (message : string) (varargs : list va_arg) (p : process) :
  exists p',
    swift.threading.fatal message varargs p = Terminated Aborted p' /\
    new_events (swift.threading.fatal message varargs) p
    = Some [EvWrite stderr "SwiftThreading fatal: ";
            EvWrite stderr (vformat message varargs);
            EvWrite stderr newline;
            EvAbort] /\
    stderr_buf p'
    = stderr_buf p +:+ "SwiftThreading fatal: " +:+ vformat message varargs
        +:+ newline /\
    stdout_buf p' = stdout_buf p /\
    returned (swift.threading.fatal message varargs p) = None.
Proof.
  eexists. split; [apply (fatal_eq Hconf) |].
  unfold new_events. rewrite (fatal_eq Hconf). cbn [final returned mbind option_bind stderr_buf stdout_buf trace].
  repeat split.
  - now rewrite <- !app_assoc, drop_app_length.
  - now rewrite !append_assoc.
Qed.

Lemma fatal_writes_in_order_then_aborts_witness :
  conforms libc_reference /\
  exists p',
    @swift.threading.fatal libc_reference "lock %s failed: %d"
      [VStr "mutex"; VInt 22] (mkProcess ∅ ∅ "" "" [])
    = Terminated Aborted p' /\
    new_events
      (@swift.threading.fatal libc_reference "lock %s failed: %d"
         [VStr "mutex"; VInt 22]) (mkProcess ∅ ∅ "" "" [])
    = Some [EvWrite stderr "SwiftThreading fatal: ";
            EvWrite stderr
              (@vformat libc_reference "lock %s failed: %d" [VStr "mutex"; VInt 22]);
            EvWrite stderr newline;
            EvAbort] /\
    stderr_buf p'
    = "" +:+ "SwiftThreading fatal: "
        +:+ @vformat libc_reference "lock %s failed: %d" [VStr "mutex"; VInt 22]
        +:+ newline /\
    stdout_buf p' = "" /\
    returned
      (@swift.threading.fatal libc_reference "lock %s failed: %d"
         [VStr "mutex"; VInt 22] (mkProcess ∅ ∅ "" "" [])) = None.
Proof.
  split.
  - exact libc_reference_conforms.
  - exact (@fatal_writes_in_order_then_aborts libc_reference
             libc_reference_conforms "lock %s failed: %d"
             [VStr "mutex"; VInt 22] (mkProcess ∅ ∅ "" "" [])).
Defined.

(** C5: [fatal] substitutes its variadic arguments by the standard
    placeholder rules: whenever those rules give the text [out] for a
    format and an argument list (any number of arguments, of any of the
    modelled types), the error stream gains the prefix, [out] and a newline.
    In particular the format "bad state %d" with the argument 42 adds
    exactly "SwiftThreading fatal: bad state 42" and a newline to the error
    stream, and the same holds for a format mixing a string, a signed and
    an unsigned integer and a character; the process then aborts. *)
Theorem fatal_standard_placeholders `{L : libc} (Hconf : conforms L)
    (p : process) :
  (forall message varargs out,
      printf_spec message varargs = Some out ->
      exists p',
        swift.threading.fatal message varargs p = Terminated Aborted p' /\
        stderr_buf p' = stderr_buf p +:+ "SwiftThreading fatal: " +:+ out +:+ newline) /\
  (exists p',
      swift.threading.fatal "bad state %d" [VInt 42] p = Terminated Aborted p' /\
      stderr_buf p'
      = stderr_buf p +:+ "SwiftThreading fatal: bad state 42" +:+ newline) /\
  (exists p',
      swift.threading.fatal "%s: %d%% of %u (%c)"
        [VStr "load"; VInt (-7); VUInt 300; VInt 65] p
      = Terminated Aborted p' /\
      stderr_buf p'
      = stderr_buf p +:+ "SwiftThreading fatal: load: -7% of 300 (A)" +:+ newline).
Proof.
  assert (Hgen : forall message varargs out,
             printf_spec message varargs = Some out ->
             exists p',
               swift.threading.fatal message varargs p = Terminated Aborted p' /\
               stderr_buf p'
               = stderr_buf p +:+ "SwiftThreading fatal: " +:+ out +:+ newline).
  { intros message varargs out Hout.
    eexists. split; [apply (fatal_eq Hconf) |].
    cbn [stderr_buf]. rewrite (Hconf _ _ _ Hout).
    now rewrite !append_assoc. }
  split; [exact Hgen |]. split.
  - exact (Hgen "bad state %d" [VInt 42] "bad state 42" eq_refl).
  - exact (Hgen "%s: %d%% of %u (%c)"
             [VStr "load"; VInt (-7); VUInt 300; VInt 65]
             "load: -7% of 300 (A)" eq_refl).
Qed.

Lemma fatal_standard_placeholders_witness :
  conforms libc_reference /\
  exists p',
    @swift.threading.fatal libc_reference "bad state %d" [VInt 42]
      (mkProcess ∅ ∅ "" "" [])
    = Terminated Aborted p' /\
    stderr_buf p' = "" +:+ "SwiftThreading fatal: bad state 42" +:+ newline.
Proof.
  split.
  - exact libc_reference_conforms.
  - exact (proj1 (proj2 (@fatal_standard_placeholders libc_reference
                           libc_reference_conforms (mkProcess ∅ ∅ "" "" [])))).
Defined.

(** The same run, evaluated: the error stream holds exactly the line. *)
Example fatal_bad_state_42_run :
  @swift.threading.fatal libc_reference "bad state %d" [VInt 42]
    (mkProcess ∅ ∅ "" "" [])
  = Terminated Aborted
      (mkProcess ∅ ∅ ""
         ("SwiftThreading fatal: bad state 42" +:+ newline)
         [EvWrite stderr "SwiftThreading fatal: ";
          EvWrite stderr "bad state 42";
          EvWrite stderr newline;
          EvAbort]).
Proof. reflexivity. Qed.

(** C10: every call of a snapshot stub returns to its caller, for all
    arguments, from every process and after every call history: the
    outcome is never a terminated process and never undefined.  [fatal], in
    contrast, never returns: from the same process it ends aborted. *)
Theorem snapshot_stubs_always_return `{sqlite3_h} `{libc}
    (history : list call) (c : call) (p : process) :
  (exists r p', invoke c p = Returned r p') /\
  (exists r p', (replay history;; invoke c) p = Returned r p') /\
  (forall how p', invoke c p <> Terminated how p') /\
  invoke c p <> Undefined /\
  (forall message varargs,
      exists p', swift.threading.fatal message varargs p = Terminated Aborted p').
Proof.
  destruct (invoke_frame c) as [r Hr].
  split; [| split; [| split; [| split]]].
  - exists r, p. apply Hr.
  - exists r, p.
    rewrite (exec_bind_returned _ _ _ _ _ (replay_frame history p)). apply Hr.
  - intros how p'. now rewrite Hr.
  - now rewrite Hr.
  - intros message varargs. apply fatal_aborts.
Qed.

(** ** How the shims compose with their callers *)

(** X1: a call of [fatal] ends the run wherever it stands.  Stub calls made
    before it change nothing of what it does, and whatever the caller wrote
    after it never executes: the whole sequence ends in the aborted process
    [fatal] alone ends in. *)
Theorem fatal_ends_the_run `{sqlite3_h} `{libc} {B : Type}
    (history : list call) (k : unit -> exec B)
    (message : string) (varargs : list va_arg) (p : process) :
  exists p',
    swift.threading.fatal message varargs p = Terminated Aborted p' /\
    (replay history;; (swift.threading.fatal message varargs ≫= k)) p
    = Terminated Aborted p' /\
    new_events (replay history;; (swift.threading.fatal message varargs ≫= k)) p
    = new_events (swift.threading.fatal message varargs) p.
Proof.
  destruct (fatal_aborts message varargs p) as [p' Hf]. exists p'.
  assert (Hall : (replay history;; (swift.threading.fatal message varargs ≫= k)) p
                 = Terminated Aborted p').
  { rewrite (exec_bind_returned _ _ _ _ _ (replay_frame history p)).
    unfold mbind, exec_bind. now rewrite Hf. }
  split; [exact Hf |]. split; [exact Hall |].
  unfold new_events. now rewrite Hall, Hf.
Qed.

(** X2: [sqlite3_snapshot_cmp] is not a comparison.  It returns the same
    status for (a, b) and for (b, a); so when [SQLITE_ERROR] is not zero, as
    in every released header, a handle never compares equal to itself and
    swapping the operands never flips the sign of the result. *)
Theorem snapshot_cmp_not_an_order `{sqlite3_h} (Hne : SQLITE_ERROR <> 0)
    (a b : ptr) (p : process) :
  returned (sqlite3_snapshot_cmp a b p) = returned (sqlite3_snapshot_cmp b a p) /\
  returned (sqlite3_snapshot_cmp a a p) <> Some 0 /\
  (forall r1 r2,
      returned (sqlite3_snapshot_cmp a b p) = Some r1 ->
      returned (sqlite3_snapshot_cmp b a p) = Some r2 ->
      Z.sgn r1 <> - Z.sgn r2).
Proof.
  rewrite !sqlite3_snapshot_cmp_eq. cbn [returned].
  split; [reflexivity |]. split.
  - intros [= H0]. exact (Hne H0).
  - intros r1 r2 [= <-] [= <-]. intros Hs.
    apply Hne. apply Z.sgn_null_iff. lia.
Qed.

Lemma snapshot_cmp_not_an_order_witness :
  @SQLITE_ERROR sqlite3_h_release <> 0 /\
  returned (@sqlite3_snapshot_cmp sqlite3_h_release 4096 8192 (mkProcess ∅ ∅ "" "" []))
  = returned (@sqlite3_snapshot_cmp sqlite3_h_release 8192 4096 (mkProcess ∅ ∅ "" "" [])) /\
  returned (@sqlite3_snapshot_cmp sqlite3_h_release 4096 4096 (mkProcess ∅ ∅ "" "" []))
  <> Some 0 /\
  (forall r1 r2,
      returned (@sqlite3_snapshot_cmp sqlite3_h_release 4096 8192 (mkProcess ∅ ∅ "" "" []))
      = Some r1 ->
      returned (@sqlite3_snapshot_cmp sqlite3_h_release 8192 4096 (mkProcess ∅ ∅ "" "" []))
      = Some r2 ->
      Z.sgn r1 <> - Z.sgn r2).
Proof.
  assert (Hne : @SQLITE_ERROR sqlite3_h_release <> 0) by (cbn; lia).
  split.
  - exact Hne.
  - exact (@snapshot_cmp_not_an_order sqlite3_h_release Hne 4096 8192
             (mkProcess ∅ ∅ "" "" [])).
Defined.

(** X3: what a caller stored survives the stubs.  If the caller writes [v]
    to a mapped cell, then makes any sequence of stub calls (which may well
    be handed that very cell as output slot), and then reads the cell, it
    reads [v]: a handle slot initialised before a failed
    [sqlite3_snapshot_get] still holds the initial value afterwards. *)
Theorem stubs_preserve_caller_store `{sqlite3_h}
    (slot : ptr) (v : Z) (history : list call) (p : process) :
  is_Some (mem p !! slot) ->
  returned ((store slot v;; replay history;; load slot) p) = Some v.
Proof.
  intros [old Hold].
  assert (Hstore : store slot v p
                   = Returned tt
                       (emit (EvStore slot v)
                          {| mem := <[slot:=v]> (mem p); allocated := allocated p;
                             stdout_buf := stdout_buf p; stderr_buf := stderr_buf p;
                             trace := trace p |})).
  { unfold store. now rewrite Hold. }
  rewrite (exec_bind_returned _ _ _ _ _ Hstore).
  rewrite (exec_bind_returned _ _ _ _ _ (replay_frame history _)).
  unfold load, emit. cbn [mem]. now rewrite lookup_insert_eq.
Qed.

Lemma stubs_preserve_caller_store_witness :
  is_Some (mem (mkProcess {[ 8 := 5 ]} ∅ "" "" []) !! 8) /\
  returned
    ((store 8 NULL;;
      @replay sqlite3_h_release [CallGet 4096 0 8; CallFree 5; CallCmp 5 5];;
      load 8) (mkProcess {[ 8 := 5 ]} ∅ "" "" []))
  = Some NULL.
Proof.
  assert (Hm : is_Some (mem (mkProcess {[ 8 := 5 ]} ∅ "" "" []) !! 8)).
  { exists 5. reflexivity. }
  split.
  - exact Hm.
  - exact (@stubs_preserve_caller_store sqlite3_h_release 8 NULL
             [CallGet 4096 0 8; CallFree 5; CallCmp 5 5]
             (mkProcess {[ 8 := 5 ]} ∅ "" "" []) Hm).
Defined.

(** X4: [fatal] hands its message to the library as the format string.
    With a conforming library, a message without any percent sign is
    printed as it stands whatever arguments come with it, and a doubled
    percent sign between two such pieces of text is printed as one. *)
Theorem fatal_message_is_a_format `{L : libc} (Hconf : conforms L)
    (before after : string) (varargs : list va_arg) (p : process) :
  plain before = true -> plain after = true ->
  (exists p',
      swift.threading.fatal before varargs p = Terminated Aborted p' /\
      stderr_buf p'
      = stderr_buf p +:+ "SwiftThreading fatal: " +:+ before +:+ newline) /\
  (exists p',
      swift.threading.fatal (before +:+ "%%" +:+ after) varargs p
      = Terminated Aborted p' /\
      stderr_buf p'
      = stderr_buf p +:+ "SwiftThreading fatal: "
          +:+ (before +:+ "%" +:+ after) +:+ newline).
Proof.
  intros Hb Ha.
  assert (Hrun : forall message out,
             printf_spec message varargs = Some out ->
             exists p',
               swift.threading.fatal message varargs p = Terminated Aborted p' /\
               stderr_buf p'
               = stderr_buf p +:+ "SwiftThreading fatal: " +:+ out +:+ newline).
  { intros message out Hout. eexists. split; [apply (fatal_eq Hconf) |].
    cbn [stderr_buf]. rewrite (Hconf _ _ _ Hout). now rewrite !append_assoc. }
  split.
  - apply Hrun, printf_spec_plain, Hb.
  - apply Hrun.
    rewrite (printf_spec_plain_prefix _ _ _ Hb).
    change ("%%" +:+ after) with (String "%" (String "%" after)).
    rewrite printf_spec_percent, (printf_spec_plain _ _ Ha). reflexivity.
Qed.

Lemma fatal_message_is_a_format_witness :
  conforms libc_reference /\
  plain "lock poisoned, load 100" = true /\ plain " reached" = true /\
  (exists p',
      @swift.threading.fatal libc_reference "lock poisoned, load 100" [VInt 3]
        (mkProcess ∅ ∅ "" "" [])
      = Terminated Aborted p' /\
      stderr_buf p'
      = "" +:+ "SwiftThreading fatal: " +:+ "lock poisoned, load 100" +:+ newline) /\
  (exists p',
      @swift.threading.fatal libc_reference
        ("lock poisoned, load 100" +:+ "%%" +:+ " reached") [VInt 3]
        (mkProcess ∅ ∅ "" "" [])
      = Terminated Aborted p' /\
      stderr_buf p'
      = "" +:+ "SwiftThreading fatal: "
          +:+ ("lock poisoned, load 100" +:+ "%" +:+ " reached") +:+ newline).
Proof.
  split; [exact libc_reference_conforms |].
  split; [reflexivity |]. split; [reflexivity |].
  exact (@fatal_message_is_a_format libc_reference libc_reference_conforms
           "lock poisoned, load 100" " reached" [VInt 3]
           (mkProcess ∅ ∅ "" "" []) eq_refl eq_refl).
Defined.
